(** * Loan calculator: the amortization engine of [app.py]

    The script computes a periodic payment with the EMI formula and then
    builds the amortization schedule with a bounded [while] loop.  This file
    embeds that core (lines 43-95 of [app.py]) and proves the properties the
    specification states about it.

    Numbers.  The script is embedded twice.  The first embedding takes
    Python's [float] values as exact rationals [Q] (the specification speaks
    of reals); the theorems proved on it are those whose statements read the
    same, and stay true, on the machine's binary64 numbers: they compare,
    order and name the values the code computes.  The worked examples and
    the two lemmas marked as holding on exact numbers only are the
    exception.  The second embedding, module [F64], runs the same lines on
    binary64 numbers; it is evaluated where rounding or overflow decides
    what the script does.  [int] values ([periods], the loop counter [i],
    the [Period] column) are [Z] in both.
    Equality of rationals is [Qeq] (written [==]); where a stored field is
    the very term the code computed, Leibniz equality is stated instead.

    The rounding of the displayed table to two decimals (line 99) comes
    after the loop and is not part of the rows studied here. *)

From Stdlib Require Import QArith Qpower ZArith List Bool Lia Lqa.
From Stdlib Require Import Sorted.
From Stdlib Require PrimFloat FloatOps SpecFloat.
Import ListNotations.

Local Open Scope Q_scope.

(** ** Python primitives used by the script *)

Module Py.

(** The exceptions the arithmetic of the script can raise: a division (or
    a negative power) of zero and, on binary64 numbers only, a power out of
    range. *)
Inductive exn : Type := ZeroDivisionError | OverflowError.

Inductive result (A : Type) : Type :=
| Ok (a : A)
| Raise (e : exn).
Arguments Ok {A} a.
Arguments Raise {A} e.

Definition bind {A B : Type} (m : result A) (k : A -> result B) : result B :=
  match m with
  | Ok a => k a
  | Raise e => Raise e
  end.

Definition raises {A : Type} (m : result A) : bool :=
  match m with
  | Ok _ => false
  | Raise _ => true
  end.

(** [x < y] as a test. *)
Definition ltb (x y : Q) : bool := negb (Qle_bool y x).

(** [x <= y] and [x == y] as tests. *)
Definition leb (x y : Q) : bool := Qle_bool x y.
Definition eqb (x y : Q) : bool := Qeq_bool x y.

(** [min(a, b)]: Python keeps the first argument unless the second is
    strictly smaller. *)
Definition min (a b : Q) : Q := if ltb b a then b else a.

(** [max(a, b)]: the first argument unless the second is strictly larger. *)
Definition max (a b : Q) : Q := if ltb a b then b else a.

(** [a / b] raises on a zero divisor. *)
Definition div (a b : Q) : result Q :=
  if eqb b 0 then Raise ZeroDivisionError else Ok (a / b).

(** [x ** n] for an [int] exponent: zero to a negative power raises.  No
    exact power is out of range; [F64.pow] has the [OverflowError] of the
    binary64 one. *)
Definition pow (x : Q) (n : Z) : result Q :=
  if eqb x 0 && (n <? 0)%Z then Raise ZeroDivisionError else Ok (x ^ n).

End Py.

Notation "x <- m ;; k" := (Py.bind m (fun x => k))
  (at level 61, m at next level, right associativity).

(** ** The script *)

(** One dictionary appended to [rows] (lines 82-89). *)
Record Row : Type := mkRow {
  Period : Z;
  Opening_Balance : Q;
  Payment : Q;
  Interest : Q;
  Principal : Q;
  Closing_Balance : Q
}.

(** The variables the schedule loop reads and writes (lines 70-74). *)
Record State : Type := mkState {
  balance : Q;
  rows : list Row;
  total_interest : Q;
  total_principal : Q;
  i : Z
}.

Inductive Frequency : Type := Monthly | Bi_weekly | Weekly.

(** Lines 46-51. *)
Definition periods_per_year (frequency : Frequency) : Z :=
  match frequency with
  | Monthly => 12
  | Bi_weekly => 26
  | Weekly => 52
  end.

(** Line 43: [principal = max(purchase_price - down_payment, 0.0)]. *)
Definition effective_principal (purchase_price down_payment : Q) : Q :=
  Py.max (purchase_price - down_payment) 0.

(** Lines 61-64. *)
Definition payment (principal r : Q) (n : Z) : Py.result Q :=
  if Py.eqb r 0 then Py.div principal (inject_Z n)
  else
    g <- Py.pow (1 + r) n ;;
    g' <- Py.pow (1 + r) n ;;
    Py.div (principal * r * g) (g' - 1).

(** Line 66. *)
Definition scheduled_payment (principal periodic_rate : Q) (periods : Z)
  : Py.result Q :=
  if Py.ltb 0 principal && (0 <? periods)%Z
  then payment principal periodic_rate periods
  else Py.Ok 0.

(** Line 67. *)
Definition gross_payment (scheduled extra_prepay : Q) : Q :=
  scheduled + extra_prepay.

Section Schedule.

Variables (principal periodic_rate : Q) (periods : Z) (gross : Q).

(** The guard of the [while] (line 75). *)
Definition loop_cond (s : State) : bool :=
  Py.ltb 0 (balance s) && (i s <? periods + 5000)%Z.

(** Lines 77-80: the principal component of one period. *)
Definition principal_component (bal : Q) : Q :=
  let interest := bal * periodic_rate in
  let pc :=
    if Py.leb 0 periodic_rate then Py.min (gross - interest) bal
    else gross in
  if Py.ltb pc 0 then 0 else pc.

(** Lines 76-95: one pass through the body.  The boolean tells whether the
    pass left the loop through [break].  Nothing in the body can raise: it
    multiplies, subtracts, adds, compares and appends. *)
Definition loop_body (s : State) : State * bool :=
  let i' := (i s + 1)%Z in
  let interest := balance s * periodic_rate in
  let pc := principal_component (balance s) in
  let closing_balance := balance s - pc in
  let row := mkRow i' (balance s) gross interest pc closing_balance in
  let rows' := rows s ++ [row] in
  let ti := total_interest s + interest in
  let tp := total_principal s + pc in
  if Py.leb closing_balance 0.01
  then (mkState 0 rows' ti tp i', true)
  else (mkState closing_balance rows' ti tp i', false).

(** The [while] loop, unrolled at most [fuel] times. *)
Fixpoint while (fuel : nat) (s : State) : State :=
  match fuel with
  | O => s
  | S fuel' =>
      if loop_cond s then
        let (s', broke) := loop_body s in
        if broke then s' else while fuel' s'
      else s
  end.

(** Lines 70-74. *)
Definition init : State := mkState principal [] 0 0 0.

(** The counter starts at 0 and the guard stops it at [periods + 5000], so
    that many unrollings always suffice: [while_exits] shows that the guard
    is false in the state returned, [while_stable] that more unrollings
    return the same state. *)
Definition build_schedule : State :=
  while (Z.to_nat (periods + 5000)) init.

End Schedule.

(** Lines 66-95 together: the payment, then the schedule built with it. *)
Definition calculator (principal periodic_rate : Q) (periods : Z)
    (extra_prepay : Q) : Py.result (Q * State) :=
  sp <- scheduled_payment principal periodic_rate periods ;;
  Py.Ok (sp, build_schedule principal periodic_rate periods
               (gross_payment sp extra_prepay)).

(** ** The loop as a producer of rows

    [schedule_from] lists the rows the loop appends when it is entered with
    a given balance and counter; [while_rows] ties the two together, so that
    facts about the returned rows are proved on this list. *)

Section Rows.

Variables (periodic_rate : Q) (periods : Z) (gross : Q).

Definition next_row (bal : Q) (k : Z) : Row :=
  let pc := principal_component periodic_rate gross bal in
  mkRow (k + 1) bal gross (bal * periodic_rate) pc (bal - pc).

Fixpoint schedule_from (fuel : nat) (bal : Q) (k : Z) : list Row :=
  match fuel with
  | O => []
  | S fuel' =>
      if Py.ltb 0 bal && (k <? periods + 5000)%Z then
        let row := next_row bal k in
        if Py.leb (Closing_Balance row) 0.01 then [row]
        else row :: schedule_from fuel' (Closing_Balance row) (k + 1)
      else []
  end.

(** The balance the loop is left with. *)
Fixpoint balance_after (fuel : nat) (bal : Q) (k : Z) : Q :=
  match fuel with
  | O => bal
  | S fuel' =>
      if Py.ltb 0 bal && (k <? periods + 5000)%Z then
        let row := next_row bal k in
        if Py.leb (Closing_Balance row) 0.01 then 0
        else balance_after fuel' (Closing_Balance row) (k + 1)
      else bal
  end.

Definition sum_of (f : Row -> Q) (l : list Row) : Q :=
  fold_right (fun r acc => f r + acc) 0 l.

End Rows.

(** The columns of a row after the period, as fractions in lowest terms
    (for the worked examples). *)
Definition row_view (row : Row) : Z * (Q * Q * Q * Q * Q) :=
  (Period row,
   (Qred (Opening_Balance row), Qred (Payment row), Qred (Interest row),
    Qred (Principal row), Qred (Closing_Balance row))).

(** Rows that follow one another: each opens at the balance the previous
    one closed at (the first at [opening]) and closes at its opening balance
    less its principal component. *)
Fixpoint linked (opening : Q) (l : list Row) : Prop :=
  match l with
  | [] => True
  | row :: l' =>
      Opening_Balance row = opening /\
      Closing_Balance row = Opening_Balance row - Principal row /\
      linked (Closing_Balance row) l'
  end.

(** ** The same lines on binary64 numbers *)

Module F64.

Import PrimFloat.
Local Open Scope float_scope.
Set Warnings "-inexact-float".

Definition ltb (x y : float) : bool := (x <? y).
Definition leb (x y : float) : bool := (x <=? y).
Definition eqb (x y : float) : bool := (x =? y).

(** [min(a, b)], as in [Py.min]. *)
Definition min (a b : float) : float := if ltb b a then b else a.

(** An [int] used where a [float] is expected: rounded to the nearest
    binary64 number, [OverflowError] when that is out of range. *)
Definition of_int (n : Z) : Py.result float :=
  let f := FloatOps.SF2Prim
             (SpecFloat.binary_normalize FloatOps.prec FloatOps.emax n 0 false) in
  if is_infinity f then Py.Raise Py.OverflowError else Py.Ok f.

(** [a / b] on floats raises on a zero divisor (of either sign). *)
Definition div (a b : float) : Py.result float :=
  if eqb b 0 then Py.Raise Py.ZeroDivisionError else Py.Ok (a / b).

(** The power of a positive base other than 1 by a nonzero whole exponent,
    which CPython leaves to the C library's [pow].  It is taken here as the
    product of [n] factors (its inverse for a negative [n]), rounded at each
    step; this is the library's value whenever the products are exact, as
    they are in the evaluations of this file, and it overflows when the
    library's does. *)
Definition libm_pow (x : float) (n : Z) : float :=
  match n with
  | Z0 => 1
  | Zpos p => Pos.iter (fun acc => acc * x) 1 p
  | Zneg p => 1 / Pos.iter (fun acc => acc * x) 1 p
  end.

(** [x ** n] for a [float] base and an [int] exponent, after CPython's
    [float_pow]: the exponent is converted first; a zero exponent gives 1;
    not-a-number, infinite and zero bases are settled by sign and parity,
    zero to a negative power raising [ZeroDivisionError]; a base of 1 (or
    -1) gives 1 (or the sign the parity asks for); the rest goes to the
    library, and a result out of range raises [OverflowError]. *)
Definition pow (x : float) (n : Z) : Py.result float :=
  w <- of_int n ;;
  let odd := Z.odd n && (Z.abs n <? 2 ^ 53)%Z in
  if eqb w 0 then Py.Ok 1
  else if is_nan x then Py.Ok x
  else if is_infinity x then
    if ltb 0 w then Py.Ok (if odd then x else abs x)
    else Py.Ok (if odd && ltb x 0 then -0 else 0)
  else if eqb x 0 then
    if ltb w 0 then Py.Raise Py.ZeroDivisionError
    else Py.Ok (if odd then x else 0)
  else
    let negate := ltb x 0 && odd in
    let b := abs x in
    if eqb b 1 then Py.Ok (if negate then -1 else 1)
    else
      let y := libm_pow b n in
      if is_infinity y then Py.Raise Py.OverflowError
      else Py.Ok (if negate then - y else y).

Record Row : Type := mkRow {
  Period : Z;
  Opening_Balance : float;
  Payment : float;
  Interest : float;
  Principal : float;
  Closing_Balance : float
}.

Record State : Type := mkState {
  balance : float;
  rows : list Row;
  total_interest : float;
  total_principal : float;
  i : Z
}.

(** Lines 61-64. *)
Definition payment (principal r : float) (n : Z) : Py.result float :=
  if eqb r 0 then
    d <- of_int n ;; div principal d
  else
    g <- pow (1 + r) n ;;
    g' <- pow (1 + r) n ;;
    div (principal * r * g) (g' - 1).

(** Line 66. *)
Definition scheduled_payment (principal periodic_rate : float) (periods : Z)
  : Py.result float :=
  if ltb 0 principal && (0 <? periods)%Z
  then payment principal periodic_rate periods
  else Py.Ok 0.

(** Line 67. *)
Definition gross_payment (scheduled extra_prepay : float) : float :=
  scheduled + extra_prepay.

(** Line 75. *)
Definition loop_cond (periods : Z) (s : State) : bool :=
  ltb 0 (balance s) && (i s <? periods + 5000)%Z.

(** Lines 77-80. *)
Definition principal_component (periodic_rate gross bal : float) : float :=
  let interest := bal * periodic_rate in
  let pc :=
    if leb 0 periodic_rate then min (gross - interest) bal
    else gross in
  if ltb pc 0 then 0 else pc.

(** Lines 76-95. *)
Definition loop_body (periodic_rate gross : float) (s : State)
  : State * bool :=
  let i' := (i s + 1)%Z in
  let interest := balance s * periodic_rate in
  let pc := principal_component periodic_rate gross (balance s) in
  let closing_balance := balance s - pc in
  let row := mkRow i' (balance s) gross interest pc closing_balance in
  let rows' := (rows s ++ [row])%list in
  let ti := total_interest s + interest in
  let tp := total_principal s + pc in
  if leb closing_balance 0.01
  then (mkState 0 rows' ti tp i', true)
  else (mkState closing_balance rows' ti tp i', false).

Fixpoint while (periodic_rate : float) (periods : Z) (gross : float)
    (fuel : nat) (s : State) : State :=
  match fuel with
  | O => s
  | S fuel' =>
      if loop_cond periods s then
        let (s', broke) := loop_body periodic_rate gross s in
        if broke then s' else while periodic_rate periods gross fuel' s'
      else s
  end.

(** Lines 70-95; the fuel is that of the first embedding, enough for the
    counter to reach the cap. *)
Definition build_schedule (principal periodic_rate : float) (periods : Z)
    (gross : float) : State :=
  while periodic_rate periods gross (Z.to_nat (periods + 5000))
    (mkState principal [] 0 0 0).

(** Lines 66-95. *)
Definition calculator (principal periodic_rate : float) (periods : Z)
    (extra_prepay : float) : Py.result (float * State) :=
  sp <- scheduled_payment principal periodic_rate periods ;;
  Py.Ok (sp, build_schedule principal periodic_rate periods
               (gross_payment sp extra_prepay)).

End F64.

(** ** The rest of the script: inputs, derived terms and totals *)

Module App.

(** The values the widgets of lines 30-40 and 58 hand to the script. *)
Record Inputs : Type := mkInputs {
  purchase_price : Q;
  down_payment : Q;
  interest_rate : Q;
  tenure_years : Z;
  frequency : Frequency;
  processing_fee : Q;
  insurance : Q;
  taxes : Q;
  allow_prepay : bool;
  extra_entered : Q
}.

(** What the script shows after the loop (lines 102-110). *)
Record Outputs : Type := mkOutputs {
  out_scheduled_payment : Q;
  out_gross_payment : Q;
  out_state : State;
  out_total_paid : Q;
  out_months_to_payoff : Z;
  out_years_to_payoff : Q
}.

(** Line 43. *)
Definition principal (inp : Inputs) : Q :=
  effective_principal (purchase_price inp) (down_payment inp).

(** Line 53. *)
Definition periods (inp : Inputs) : Z :=
  (tenure_years inp * periods_per_year (frequency inp))%Z.

(** Line 54: [(interest_rate / 100) / periods_per_year]. *)
Definition periodic_rate (inp : Inputs) : Py.result Q :=
  x <- Py.div (interest_rate inp) 100 ;;
  Py.div x (inject_Z (periods_per_year (frequency inp))).

(** Lines 56-58. *)
Definition extra_prepay (inp : Inputs) : Q :=
  if allow_prepay inp then extra_entered inp else 0.

(** Line 102. *)
Definition total_paid (inp : Inputs) (s : State) : Q :=
  total_interest s + total_principal s + processing_fee inp
  + (insurance inp + taxes inp) * inject_Z (tenure_years inp).

(** Line 103: the number of rows of the table. *)
Definition months_to_payoff (s : State) : Z := Z.of_nat (length (rows s)).

(** Line 104:
    [months_to_payoff / periods_per_year if periods_per_year else 0]. *)
Definition years_to_payoff (inp : Inputs) (s : State) : Py.result Q :=
  if (periods_per_year (frequency inp) =? 0)%Z then Py.Ok 0
  else Py.div (inject_Z (months_to_payoff s))
              (inject_Z (periods_per_year (frequency inp))).

(** Lines 43-104, charts and tables apart. *)
Definition run (inp : Inputs) : Py.result Outputs :=
  r <- periodic_rate inp ;;
  res <- calculator (principal inp) r (periods inp) (extra_prepay inp) ;;
  let (sp, s) := res in
  y <- years_to_payoff inp s ;;
  Py.Ok (mkOutputs sp (gross_payment sp (extra_prepay inp)) s
           (total_paid inp s) (months_to_payoff s) y).

End App.


(** * Properties *)

(** ** Worked examples, on exact numbers *)

(** No loan: no payment, no rows, no interest. *)
Example calculator_zero_principal :
  calculator 0 0.01 12 0 = Py.Ok (0, mkState 0 [] 0 0 0).
Proof. reflexivity. Qed.

(** 100 at 10% per period over two periods: the payment is 1210/21 (about
    57.62) and the second row closes at 0. *)
Example calculator_two_periods :
  exists sp s,
    calculator 100 0.1 2 0 = Py.Ok (sp, s) /\
    Qred sp = 1210 # 21 /\
    map row_view (rows s) =
      [ (1%Z, (100, 1210 # 21, 10, 1000 # 21, 1100 # 21));
        (2%Z, (1100 # 21, 1210 # 21, 110 # 21, 1100 # 21, 0)) ] /\
    Qred (total_principal s) = 100 /\
    Qred (total_interest s) = 320 # 21 /\
    balance s = 0 /\ i s = 2%Z.
Proof.
  destruct (calculator 100 0.1 2 0) as [[sp s]|e] eqn:E;
    vm_compute in E; [|discriminate].
  injection E as <- <-.
  eexists _, _. split; [reflexivity|].
  repeat split; vm_compute; reflexivity.
Qed.

(** 1200 without interest over 12 periods, with 50 extra each period: the
    scheduled payment is 100 and the loan is paid off in 8 rows. *)
Example calculator_prepayment :
  exists s,
    calculator 1200 0 12 50 = Py.Ok (1200 / inject_Z 12, s) /\
    map (fun row => Qred (Closing_Balance row)) (rows s) =
      [1050; 900; 750; 600; 450; 300; 150; 0] /\
    balance s = 0 /\ i s = 8%Z.
Proof.
  eexists. split; [reflexivity|].
  repeat split; vm_compute; reflexivity.
Qed.

(** ** Tests as propositions *)

Lemma ltb_true (x y : Q) : Py.ltb x y = true <-> x < y.
Proof.
  unfold Py.ltb. rewrite negb_true_iff.
  split; intro H.
  - apply Qnot_le_lt. intro L. apply Qle_bool_iff in L. congruence.
  - destruct (Qle_bool y x) eqn:E; [|reflexivity].
    apply Qle_bool_iff in E. exfalso. apply (Qlt_not_le _ _ H E).
Qed.

Lemma ltb_false (x y : Q) : Py.ltb x y = false <-> y <= x.
Proof.
  unfold Py.ltb. rewrite negb_false_iff. apply Qle_bool_iff.
Qed.

Lemma leb_true (x y : Q) : Py.leb x y = true <-> x <= y.
Proof. apply Qle_bool_iff. Qed.

Lemma leb_false (x y : Q) : Py.leb x y = false <-> y < x.
Proof.
  unfold Py.leb. split; intro H.
  - apply Qnot_le_lt. intro L. apply Qle_bool_iff in L. congruence.
  - destruct (Qle_bool x y) eqn:E; [|reflexivity].
    apply Qle_bool_iff in E. exfalso. apply (Qlt_not_le _ _ H E).
Qed.

Lemma eqb_true (x y : Q) : Py.eqb x y = true <-> x == y.
Proof. apply Qeq_bool_iff. Qed.

Lemma eqb_false (x y : Q) : Py.eqb x y = false <-> ~ x == y.
Proof.
  unfold Py.eqb. split; intro H.
  - now apply Qeq_bool_neq.
  - destruct (Qeq_bool x y) eqn:E; [|reflexivity].
    apply Qeq_bool_iff in E. contradiction.
Qed.

(** Case analysis on a test, with the matching fact in the context. *)
Ltac case_test t :=
  let E := fresh "E" in
  lazymatch t with
  | Py.ltb ?x ?y =>
      destruct (Py.ltb x y) eqn:E;
      [apply ltb_true in E | apply ltb_false in E]
  | Py.leb ?x ?y =>
      destruct (Py.leb x y) eqn:E;
      [apply leb_true in E | apply leb_false in E]
  | Py.eqb ?x ?y =>
      destruct (Py.eqb x y) eqn:E;
      [apply eqb_true in E | apply eqb_false in E]
  end.

(** Evaluate a closed comparison of rationals. *)
Ltac q_eval := vm_compute; first [reflexivity | discriminate].

Lemma min_spec (a b : Q) :
  (b < a /\ Py.min a b = b) \/ (a <= b /\ Py.min a b = a).
Proof.
  unfold Py.min. case_test (Py.ltb b a); [left | right]; split; auto.
Qed.

Lemma effective_principal_nonneg (purchase_price down_payment : Q) :
  0 <= effective_principal purchase_price down_payment.
Proof.
  unfold effective_principal, Py.max.
  case_test (Py.ltb (purchase_price - down_payment) 0); lra.
Qed.

(** ** The loop and the rows it appends *)

Section RowsFacts.

Variables (periodic_rate : Q) (periods : Z) (gross : Q).

Local Abbreviation next_row := (next_row periodic_rate gross).
Local Abbreviation schedule_from := (schedule_from periodic_rate periods gross).
Local Abbreviation balance_after := (balance_after periodic_rate periods gross).

Lemma sum_of_cons (f : Row -> Q) (r : Row) (l : list Row) :
  sum_of f (r :: l) = f r + sum_of f l.
Proof. reflexivity. Qed.

Lemma sum_of_nil (f : Row -> Q) : sum_of f [] = 0.
Proof. reflexivity. Qed.

Local Abbreviation while' := (while periodic_rate periods gross).
Local Abbreviation cond := (loop_cond periods).

Lemma while_S (fuel : nat) (s : State) :
  while' (S fuel) s =
    if Py.ltb 0 (balance s) && (i s <? periods + 5000)%Z then
      let row := next_row (balance s) (i s) in
      if Py.leb (Closing_Balance row) 0.01
      then mkState 0 (rows s ++ [row]) (total_interest s + Interest row)
             (total_principal s + Principal row) (i s + 1)
      else while' fuel
             (mkState (Closing_Balance row) (rows s ++ [row])
                (total_interest s + Interest row)
                (total_principal s + Principal row) (i s + 1))
    else s.
Proof.
  simpl. unfold loop_cond, loop_body.
  destruct (Py.ltb 0 (balance s) && (i s <? periods + 5000)%Z);
    [|reflexivity].
  cbv zeta. unfold next_row. simpl.
  now destruct (Py.leb _ 0.01).
Qed.

Lemma schedule_from_S (fuel : nat) (bal : Q) (k : Z) :
  schedule_from (S fuel) bal k =
    if Py.ltb 0 bal && (k <? periods + 5000)%Z then
      if Py.leb (Closing_Balance (next_row bal k)) 0.01
      then [next_row bal k]
      else next_row bal k
             :: schedule_from fuel (Closing_Balance (next_row bal k)) (k + 1)
    else [].
Proof. reflexivity. Qed.

Lemma balance_after_S (fuel : nat) (bal : Q) (k : Z) :
  balance_after (S fuel) bal k =
    if Py.ltb 0 bal && (k <? periods + 5000)%Z then
      if Py.leb (Closing_Balance (next_row bal k)) 0.01 then 0
      else balance_after fuel (Closing_Balance (next_row bal k)) (k + 1)
    else bal.
Proof. reflexivity. Qed.

(** Unfold one pass of the loop and split on its two tests. *)
Ltac loop_step s :=
  rewrite ?while_S, ?schedule_from_S, ?balance_after_S; cbv zeta;
  destruct (Py.ltb 0 (balance s) && (i s <? periods + 5000)%Z);
  [destruct (Py.leb (Closing_Balance (next_row (balance s) (i s))) 0.01)|].

Lemma while_rows (fuel : nat) :
  forall s, rows (while' fuel s) =
            rows s ++ schedule_from fuel (balance s) (i s).
Proof.
  induction fuel as [|fuel IH]; intros s.
  - simpl. now rewrite app_nil_r.
  - loop_step s.
    + reflexivity.
    + rewrite IH. cbn [rows balance i]. now rewrite <- app_assoc.
    + now rewrite app_nil_r.
Qed.

Lemma while_balance (fuel : nat) :
  forall s, balance (while' fuel s) = balance_after fuel (balance s) (i s).
Proof.
  induction fuel as [|fuel IH]; intros s; [reflexivity|].
  loop_step s; try reflexivity.
  now rewrite IH.
Qed.

Lemma while_i (fuel : nat) :
  forall s, i (while' fuel s) =
            (i s + Z.of_nat (length (schedule_from fuel (balance s) (i s))))%Z.
Proof.
  induction fuel as [|fuel IH]; intros s; [simpl; lia|].
  loop_step s.
  - cbn [i length]. lia.
  - rewrite IH. cbn [i balance length]. lia.
  - cbn [length]. lia.
Qed.

Lemma while_total_principal (fuel : nat) :
  forall s, total_principal (while' fuel s) ==
            total_principal s
            + sum_of Principal (schedule_from fuel (balance s) (i s)).
Proof.
  induction fuel as [|fuel IH]; intros s; [simpl; lra|].
  loop_step s.
  - rewrite sum_of_cons, sum_of_nil. cbn [total_principal]. lra.
  - rewrite IH, sum_of_cons. cbn [total_principal balance i]. lra.
  - rewrite sum_of_nil. lra.
Qed.

Lemma while_total_interest (fuel : nat) :
  forall s, total_interest (while' fuel s) ==
            total_interest s
            + sum_of Interest (schedule_from fuel (balance s) (i s)).
Proof.
  induction fuel as [|fuel IH]; intros s; [simpl; lra|].
  loop_step s.
  - rewrite sum_of_cons, sum_of_nil. cbn [total_interest]. lra.
  - rewrite IH, sum_of_cons. cbn [total_interest balance i]. lra.
  - rewrite sum_of_nil. lra.
Qed.

(** *** Termination: the fuel of [build_schedule] is never exhausted *)

Lemma while_exits (fuel : nat) :
  forall s, (Z.to_nat (periods + 5000 - i s) <= fuel)%nat ->
            cond (while' fuel s) = false.
Proof.
  induction fuel as [|fuel IH]; intros s Hfuel.
  - simpl. unfold loop_cond. apply andb_false_iff. right.
    apply Z.ltb_ge. lia.
  - rewrite while_S. cbv zeta. fold (cond s).
    destruct (cond s) eqn:C; [|exact C].
    destruct (Py.leb (Closing_Balance (next_row (balance s) (i s))) 0.01).
    + reflexivity.
    + apply IH. cbn [i]. lia.
Qed.

Lemma while_stable (fuel extra : nat) :
  forall s, cond (while' fuel s) = false ->
            while' (fuel + extra) s = while' fuel s.
Proof.
  induction fuel as [|fuel IH]; intros s Hc.
  - simpl in *. destruct extra; [reflexivity|].
    rewrite while_S. fold (cond s). now rewrite Hc.
  - rewrite Nat.add_succ_l, !while_S in *. cbv zeta in *.
    destruct (Py.ltb 0 (balance s) && (i s <? periods + 5000)%Z);
      [|reflexivity].
    destruct (Py.leb (Closing_Balance (next_row (balance s) (i s))) 0.01).
    + reflexivity.
    + now apply IH.
Qed.

End RowsFacts.


(** ** What [build_schedule] returns, in terms of [schedule_from] *)

Lemma build_schedule_rows (principal periodic_rate : Q) (periods : Z) (gross : Q) :
  rows (build_schedule principal periodic_rate periods gross) =
    schedule_from periodic_rate periods gross
      (Z.to_nat (periods + 5000)) principal 0.
Proof. unfold build_schedule. now rewrite while_rows. Qed.

Lemma build_schedule_balance (principal periodic_rate : Q) (periods : Z) (gross : Q) :
  balance (build_schedule principal periodic_rate periods gross) =
    balance_after periodic_rate periods gross
      (Z.to_nat (periods + 5000)) principal 0.
Proof. unfold build_schedule. now rewrite while_balance. Qed.

Lemma build_schedule_total_principal
    (principal periodic_rate : Q) (periods : Z) (gross : Q) :
  total_principal (build_schedule principal periodic_rate periods gross) ==
    sum_of Principal (rows (build_schedule principal periodic_rate periods gross)).
Proof.
  rewrite build_schedule_rows. unfold build_schedule.
  rewrite while_total_principal. simpl. lra.
Qed.

Lemma build_schedule_total_interest
    (principal periodic_rate : Q) (periods : Z) (gross : Q) :
  total_interest (build_schedule principal periodic_rate periods gross) ==
    sum_of Interest (rows (build_schedule principal periodic_rate periods gross)).
Proof.
  rewrite build_schedule_rows. unfold build_schedule.
  rewrite while_total_interest. simpl. lra.
Qed.

(** ** Row invariants *)

Lemma principal_component_nonneg (periodic_rate gross bal : Q) :
  0 <= principal_component periodic_rate gross bal.
Proof.
  unfold principal_component. cbv zeta.
  match goal with |- context [Py.ltb ?a 0] => case_test (Py.ltb a 0) end; lra.
Qed.

Lemma schedule_from_linked (periodic_rate : Q) (periods : Z) (gross : Q)
    (fuel : nat) :
  forall bal k, linked bal (schedule_from periodic_rate periods gross fuel bal k).
Proof.
  induction fuel as [|fuel IH]; intros bal k; [exact I|].
  rewrite schedule_from_S.
  destruct (Py.ltb 0 bal && (k <? periods + 5000)%Z); [|exact I].
  destruct (Py.leb _ 0.01); simpl; repeat split; auto.
Qed.

Lemma linked_each (opening : Q) (l : list Row) :
  linked opening l ->
  Forall (fun row => Closing_Balance row = Opening_Balance row - Principal row) l.
Proof.
  revert opening. induction l as [|row l IH]; intros opening H; constructor.
  - apply H.
  - apply (IH (Closing_Balance row)), H.
Qed.

Lemma linked_first (opening : Q) (l : list Row) (row : Row) :
  linked opening l -> hd_error l = Some row -> Opening_Balance row = opening.
Proof.
  destruct l as [|r l]; simpl; [discriminate|].
  intros [H _] [= <-]. exact H.
Qed.

Lemma linked_next (opening : Q) (l : list Row) :
  linked opening l ->
  forall k a b, nth_error l k = Some a -> nth_error l (S k) = Some b ->
                Opening_Balance b = Closing_Balance a.
Proof.
  revert opening. induction l as [|row l IH]; intros opening H k a b Ha Hb.
  - destruct k; discriminate.
  - destruct H as (_ & _ & H). destruct k as [|k].
    + injection Ha as <-. simpl in Hb.
      apply (linked_first _ l b H). now destruct l.
    + simpl in Ha, Hb. exact (IH _ H k a b Ha Hb).
Qed.

Lemma schedule_rows_linked_each
    (principal periodic_rate : Q) (periods : Z) (gross : Q) :
  Forall (fun row =>
            Closing_Balance row = Opening_Balance row - Principal row)
    (rows (build_schedule principal periodic_rate periods gross)).
Proof.
  rewrite build_schedule_rows.
  exact (linked_each _ _ (schedule_from_linked _ _ _ _ _ _)).
Qed.

(** C2.  In the schedule the loop builds, every row closes at its opening
    balance less its principal component, the first row opens at the
    principal, and every row opens at the balance the previous row closed
    at.  This holds for all inputs, so in particular for the non-negative
    ones the claim speaks of. *)
Theorem schedule_rows_linked
    (principal periodic_rate : Q) (periods : Z) (gross : Q) :
  let l := rows (build_schedule principal periodic_rate periods gross) in
  Forall (fun row =>
            Closing_Balance row = Opening_Balance row - Principal row) l /\
  (forall row, hd_error l = Some row -> Opening_Balance row = principal) /\
  (forall k a b, nth_error l k = Some a -> nth_error l (S k) = Some b ->
                 Opening_Balance b = Closing_Balance a).
Proof.
  cbv zeta. rewrite build_schedule_rows.
  pose proof (schedule_from_linked periodic_rate periods gross
                (Z.to_nat (periods + 5000)) principal 0) as H.
  split; [|split].
  - exact (linked_each _ _ H).
  - intros row. exact (linked_first _ _ row H).
  - exact (linked_next _ _ H).
Qed.

Lemma schedule_from_monotone (periodic_rate : Q) (periods : Z) (gross : Q)
    (fuel : nat) :
  forall bal k,
    Forall (fun row => 0 <= Principal row /\
                       Closing_Balance row <= Opening_Balance row)
      (schedule_from periodic_rate periods gross fuel bal k).
Proof.
  induction fuel as [|fuel IH]; intros bal k; [constructor|].
  rewrite schedule_from_S.
  destruct (Py.ltb 0 bal && (k <? periods + 5000)%Z); [|constructor].
  assert (0 <= Principal (next_row periodic_rate gross bal k) /\
          Closing_Balance (next_row periodic_rate gross bal k)
          <= Opening_Balance (next_row periodic_rate gross bal k)) as Hrow.
  { simpl. pose proof (principal_component_nonneg periodic_rate gross bal).
    split; lra. }
  destruct (Py.leb _ 0.01); constructor; auto.
Qed.

(** C8.  In every row of the schedule the principal component is not
    negative and the closing balance does not exceed the opening balance
    (for all inputs, so in particular for the non-negative ones). *)
Theorem schedule_rows_monotone
    (principal periodic_rate : Q) (periods : Z) (gross : Q) :
  Forall (fun row => 0 <= Principal row /\
                     Closing_Balance row <= Opening_Balance row)
    (rows (build_schedule principal periodic_rate periods gross)).
Proof. rewrite build_schedule_rows. apply schedule_from_monotone. Qed.

(** ** Termination and the iteration cap *)

Lemma schedule_from_length (periodic_rate : Q) (periods : Z) (gross : Q)
    (fuel : nat) :
  forall bal k,
    (length (schedule_from periodic_rate periods gross fuel bal k) <= fuel)%nat.
Proof.
  induction fuel as [|fuel IH]; intros bal k; [reflexivity|].
  rewrite schedule_from_S.
  destruct (Py.ltb 0 bal && (k <? periods + 5000)%Z); [|simpl; lia].
  destruct (Py.leb _ 0.01); simpl; [lia|].
  specialize (IH (Closing_Balance (next_row periodic_rate gross bal k))
                (k + 1)%Z).
  simpl in IH. lia.
Qed.

(** C3.  The loop stops after at most [periods + 5000] passes: the fuel of
    [build_schedule] is enough for the guard to fail (more fuel changes
    nothing), the counter equals the number of rows, and there are at most
    [periods + 5000] rows. *)
Theorem schedule_terminates_within_cap
    (principal periodic_rate : Q) (periods : Z) (gross : Q) :
  (0 <= periods)%Z ->
  let s := build_schedule principal periodic_rate periods gross in
  loop_cond periods s = false /\
  (forall extra,
      while periodic_rate periods gross
        (Z.to_nat (periods + 5000) + extra) (init principal) = s) /\
  i s = Z.of_nat (length (rows s)) /\
  (Z.of_nat (length (rows s)) <= periods + 5000)%Z.
Proof.
  intros Hn s.
  assert (loop_cond periods s = false) as Hexit.
  { apply while_exits. simpl. lia. }
  split; [exact Hexit|]. split; [|split].
  - intros extra. now apply while_stable.
  - subst s. rewrite build_schedule_rows. unfold build_schedule.
    now rewrite while_i.
  - subst s. rewrite build_schedule_rows.
    pose proof (schedule_from_length periodic_rate periods gross
                  (Z.to_nat (periods + 5000)) principal 0).
    lia.
Qed.

Lemma schedule_terminates_within_cap_witness :
  (0 <= 12)%Z /\
  let s := build_schedule 1000 0.01 12 90 in
  loop_cond 12 s = false /\
  (forall extra,
      while 0.01 12 90 (Z.to_nat (12 + 5000) + extra) (init 1000) = s) /\
  i s = Z.of_nat (length (rows s)) /\
  (Z.of_nat (length (rows s)) <= 12 + 5000)%Z.
Proof.
  split; [lia|].
  apply (schedule_terminates_within_cap 1000 0.01 12 90). lia.
Defined.

(** ** When the schedule is empty *)

Lemma schedule_from_nil (periodic_rate : Q) (periods : Z) (gross : Q)
    (fuel : nat) (bal : Q) (k : Z) :
  bal <= 0 -> schedule_from periodic_rate periods gross fuel bal k = [].
Proof.
  intros H. destruct fuel as [|fuel]; [reflexivity|].
  rewrite schedule_from_S.
  apply ltb_false in H. now rewrite H.
Qed.

Lemma schedule_from_cons (periodic_rate : Q) (periods : Z) (gross : Q)
    (fuel : nat) (bal : Q) (k : Z) :
  0 < bal -> (k < periods + 5000)%Z ->
  exists tl,
    schedule_from periodic_rate periods gross (S fuel) bal k =
      next_row periodic_rate gross bal k :: tl.
Proof.
  intros Hb Hk. rewrite schedule_from_S.
  apply ltb_true in Hb. apply Z.ltb_lt in Hk. rewrite Hb, Hk. simpl andb.
  destruct (Py.leb _ 0.01); eauto.
Qed.

(** C10.  For a non-negative principal and a non-negative number of
    periods the schedule is empty exactly when the principal is zero; with a
    positive principal it has a row, also when [periods] is 0. *)
Theorem schedule_empty_iff
    (principal periodic_rate : Q) (periods : Z) (gross : Q) :
  0 <= principal -> (0 <= periods)%Z ->
  (rows (build_schedule principal periodic_rate periods gross) = []
   <-> principal == 0) /\
  (0 < principal ->
   (1 <= length (rows (build_schedule principal periodic_rate periods gross)))%nat).
Proof.
  intros HP Hn. rewrite build_schedule_rows.
  assert (exists fuel, Z.to_nat (periods + 5000) = S fuel) as [fuel ->].
  { exists (Z.to_nat (periods + 4999)). lia. }
  assert (0 < principal ->
          exists tl, schedule_from periodic_rate periods gross
                       (S fuel) principal 0 =
                     next_row periodic_rate gross principal 0 :: tl) as Hcons.
  { intros Hpos. apply schedule_from_cons; [exact Hpos | lia]. }
  split; [split|].
  - intros Hnil. destruct (Qlt_le_dec 0 principal) as [Hpos|Hle]; [|lra].
    destruct (Hcons Hpos) as [tl Htl]. congruence.
  - intros Hz. apply schedule_from_nil. lra.
  - intros Hpos. destruct (Hcons Hpos) as [tl ->]. simpl. lia.
Qed.

Lemma schedule_empty_iff_witness :
  0 <= 1000 /\ (0 <= 0)%Z /\
  (rows (build_schedule 1000 0.01 0 0) = [] <-> 1000 == 0) /\
  (0 < 1000 -> (1 <= length (rows (build_schedule 1000 0.01 0 0)))%nat).
Proof.
  assert (0 <= 1000) as HP by q_eval.
  split; [exact HP|]. split; [lia|].
  apply (schedule_empty_iff 1000 0.01 0 0 HP). lia.
Defined.

(** ** The 0.01 threshold *)

Lemma schedule_from_small_closing (periodic_rate : Q) (periods : Z) (gross : Q)
    (fuel : nat) :
  forall bal k j row,
    nth_error (schedule_from periodic_rate periods gross fuel bal k) j
      = Some row ->
    Closing_Balance row <= 0.01 ->
    length (schedule_from periodic_rate periods gross fuel bal k) = S j /\
    balance_after periodic_rate periods gross fuel bal k = 0.
Proof.
  induction fuel as [|fuel IH]; intros bal k j row Hj Hc.
  - destruct j; discriminate.
  - rewrite schedule_from_S in *. rewrite balance_after_S.
    destruct (Py.ltb 0 bal && (k <? periods + 5000)%Z);
      [|destruct j; discriminate].
    case_test (Py.leb (Closing_Balance (next_row periodic_rate gross bal k)) 0.01).
    + destruct j as [|[|j]]; try discriminate. split; reflexivity.
    + destruct j as [|j].
      * injection Hj as <-. lra.
      * simpl in Hj. destruct (IH _ _ _ _ Hj Hc) as [Hlen Hbal].
        split; [simpl; now rewrite Hlen | exact Hbal].
Qed.

(** C6, as the code has it.  A row whose closing balance is at most 0.01 is
    the last row of the schedule, and the loop then leaves its running
    balance at exactly 0.  The row itself keeps the closing balance as it
    was computed: opening balance less principal component. *)
Theorem small_closing_row_is_last
    (principal periodic_rate : Q) (periods : Z) (gross : Q)
    (j : nat) (row : Row) :
  let s := build_schedule principal periodic_rate periods gross in
  nth_error (rows s) j = Some row ->
  Closing_Balance row <= 0.01 ->
  length (rows s) = S j /\ balance s = 0 /\
  Closing_Balance row = Opening_Balance row - Principal row.
Proof.
  cbv zeta. intros Hj Hc.
  pose proof (schedule_rows_linked_each principal periodic_rate periods gross)
    as Heach.
  rewrite build_schedule_rows in *. rewrite build_schedule_balance.
  destruct (schedule_from_small_closing _ _ _ _ _ _ _ _ Hj Hc) as [Hl Hb].
  repeat split; auto.
  rewrite Forall_forall in Heach. apply Heach. eapply nth_error_In, Hj.
Qed.

Lemma small_closing_row_is_last_witness :
  let s := build_schedule 0.01 0.01 12 0 in
  let row := mkRow 1 0.01 0 (0.01 * 0.01) 0 (0.01 - 0) in
  nth_error (rows s) 0 = Some row /\
  Closing_Balance row <= 0.01 /\
  length (rows s) = 1%nat /\ balance s = 0 /\
  Closing_Balance row = Opening_Balance row - Principal row.
Proof.
  cbv zeta.
  assert (nth_error (rows (build_schedule 0.01 0.01 12 0)) 0 =
          Some (mkRow 1 0.01 0 (0.01 * 0.01) 0 (0.01 - 0))) as Hj
    by (vm_compute; reflexivity).
  assert (Closing_Balance (mkRow 1 0.01 0 (0.01 * 0.01) 0 (0.01 - 0)) <= 0.01)
    as Hc by q_eval.
  split; [exact Hj|]. split; [exact Hc|].
  exact (small_closing_row_is_last 0.01 0.01 12 0 0%nat _ Hj Hc).
Defined.

(** C6 as stated fails.  With a principal of 0.01, a rate of 1% per period
    and 12 periods, the only row closes at about 0.0092: at most 0.01, yet
    stored as computed and not as 0 (nor would rounding to two decimals
    show it as 0). *)
Lemma snapped_row_counterexample :
  exists sp s row,
    calculator 0.01 0.01 12 0 = Py.Ok (sp, s) /\
    In row (rows s) /\
    Closing_Balance row <= 0.01 /\
    0.005 < Closing_Balance row /\
    ~ Closing_Balance row == 0.
Proof.
  destruct (calculator 0.01 0.01 12 0) as [[sp s]|e] eqn:E;
    vm_compute in E; [|discriminate].
  injection E as <- <-.
  eexists _, _, _. split; [reflexivity|].
  split; [left; reflexivity|].
  repeat split; q_eval.
Qed.

(** ** A payment below the first period's interest *)

Lemma principal_component_stalled (periodic_rate gross bal : Q) :
  0 < bal -> gross < bal * periodic_rate ->
  principal_component periodic_rate gross bal = 0.
Proof.
  intros Hb Hg. unfold principal_component. cbv zeta.
  case_test (Py.leb 0 periodic_rate).
  - destruct (min_spec (gross - bal * periodic_rate) bal) as [[H ->]|[H ->]].
    + lra.
    + case_test (Py.ltb (gross - bal * periodic_rate) 0); [reflexivity | lra].
  - case_test (Py.ltb gross 0); [reflexivity|].
    assert (bal * periodic_rate < 0); [|lra].
    setoid_replace 0 with (bal * 0) by ring.
    apply Qmult_lt_l; assumption.
Qed.

Lemma schedule_from_stalled
    (principal periodic_rate : Q) (periods : Z) (gross : Q) (fuel : nat) :
  gross < principal * periodic_rate ->
  forall bal k,
    0.01 < bal -> bal == principal ->
    Z.to_nat (periods + 5000 - k) = fuel ->
    length (schedule_from periodic_rate periods gross fuel bal k) = fuel /\
    Forall (fun row => Principal row = 0 /\
                       Closing_Balance row == Opening_Balance row /\
                       Opening_Balance row == principal)
      (schedule_from periodic_rate periods gross fuel bal k).
Proof.
  intros Hg.
  induction fuel as [|fuel IH]; intros bal k Hb Heq Hfuel.
  - split; [reflexivity | constructor].
  - rewrite schedule_from_S.
    assert (principal_component periodic_rate gross bal = 0) as Hpc.
    { apply principal_component_stalled; [lra|]. now rewrite Heq. }
    assert (Py.ltb 0 bal = true) as -> by (apply ltb_true; lra).
    assert ((k <? periods + 5000)%Z = true) as -> by (apply Z.ltb_lt; lia).
    simpl andb.
    assert (Closing_Balance (next_row periodic_rate gross bal k) = bal - 0)
      as Hclose by (simpl; now rewrite Hpc).
    rewrite Hclose.
    assert (Py.leb (bal - 0) 0.01 = false) as -> by (apply leb_false; lra).
    destruct (IH (bal - 0) (k + 1)%Z) as [Hlen Hall]; [lra | lra | lia |].
    split; [simpl; now rewrite Hlen|].
    constructor; [|exact Hall].
    rewrite Hclose. simpl. split; [exact Hpc|]. split; lra.
Qed.

(** C7, as the code has it.  When the principal exceeds 0.01 and the gross
    payment is below the first period's interest, the schedule has exactly
    [periods + 5000] rows, each with a zero principal component and a
    closing balance equal to its opening balance, the principal. *)
Theorem stalled_schedule_runs_to_cap
    (principal periodic_rate : Q) (periods : Z) (gross : Q) :
  0.01 < principal -> (0 <= periods)%Z ->
  gross < principal * periodic_rate ->
  let l := rows (build_schedule principal periodic_rate periods gross) in
  Z.of_nat (length l) = (periods + 5000)%Z /\
  Forall (fun row => Principal row = 0 /\
                     Closing_Balance row == Opening_Balance row /\
                     Opening_Balance row == principal) l.
Proof.
  intros HP Hn Hg. cbv zeta. rewrite build_schedule_rows.
  destruct (schedule_from_stalled principal periodic_rate periods gross
              (Z.to_nat (periods + 5000)) Hg principal 0)
    as [Hlen Hall]; [exact HP | reflexivity | f_equal; lia |].
  split; [rewrite Hlen; lia | exact Hall].
Qed.

Lemma stalled_schedule_runs_to_cap_witness :
  0.01 < 1000 /\ (0 <= 12)%Z /\ 5 < 1000 * 0.01 /\
  let l := rows (build_schedule 1000 0.01 12 5) in
  Z.of_nat (length l) = (12 + 5000)%Z /\
  Forall (fun row => Principal row = 0 /\
                     Closing_Balance row == Opening_Balance row /\
                     Opening_Balance row == 1000) l.
Proof.
  assert (0.01 < 1000) as HP by q_eval.
  assert (5 < 1000 * 0.01) as Hg by q_eval.
  split; [exact HP|]. split; [lia|]. split; [exact Hg|].
  apply (stalled_schedule_runs_to_cap 1000 0.01 12 5 HP); [lia | exact Hg].
Defined.

(** C7 as stated fails.  With a principal of 0.01 (positive), 1% interest
    per period, 12 periods and no payment at all, the schedule has one row,
    not 5012: the untouched balance is already at most 0.01. *)
Lemma stalled_schedule_counterexample :
  0 < 0.01 /\ 0 < 0.01 * 0.01 /\
  length (rows (build_schedule 0.01 0.01 12 0)) = 1%nat /\
  Z.of_nat (length (rows (build_schedule 0.01 0.01 12 0))) <> (12 + 5000)%Z.
Proof.
  split; [q_eval|]. split; [q_eval|].
  assert (length (rows (build_schedule 0.01 0.01 12 0)) = 1%nat) as H
    by (vm_compute; reflexivity).
  split; [exact H | rewrite H; discriminate].
Qed.

(** ** The scheduled payment *)

Lemma inject_Z_nonzero (n : Z) : (0 < n)%Z -> ~ inject_Z n == 0.
Proof.
  intros Hn H. assert (0 < inject_Z n); [|lra].
  change 0 with (inject_Z 0). now rewrite <- Zlt_Qlt.
Qed.

Lemma growth_above_one (r : Q) (n : Z) :
  0 < r -> (0 < n)%Z -> 1 < (1 + r) ^ n.
Proof. intros Hr Hn. apply Qpower_1_lt; [lra | exact Hn]. Qed.

Lemma pow_growth (r : Q) (n : Z) :
  0 <= r -> Py.pow (1 + r) n = Py.Ok ((1 + r) ^ n).
Proof.
  intros Hr. unfold Py.pow.
  assert (Py.eqb (1 + r) 0 = false) as -> by (apply eqb_false; lra).
  reflexivity.
Qed.

(** The value of [payment] on the branch with interest. *)
Lemma payment_with_interest (principal r : Q) (n : Z) :
  0 < r -> (0 < n)%Z ->
  payment principal r n =
    Py.Ok (principal * r * (1 + r) ^ n / ((1 + r) ^ n - 1)).
Proof.
  intros Hr Hn. unfold payment.
  assert (Py.eqb r 0 = false) as -> by (apply eqb_false; lra).
  rewrite pow_growth by lra. simpl Py.bind. unfold Py.div.
  pose proof (growth_above_one r n Hr Hn).
  assert (Py.eqb ((1 + r) ^ n - 1) 0 = false) as -> by (apply eqb_false; lra).
  reflexivity.
Qed.

(** The value of [payment] on the branch without interest. *)
Lemma payment_without_interest (principal r : Q) (n : Z) :
  r == 0 -> (0 < n)%Z ->
  payment principal r n = Py.Ok (principal / inject_Z n).
Proof.
  intros Hr Hn. unfold payment.
  assert (Py.eqb r 0 = true) as -> by (now apply eqb_true).
  unfold Py.div.
  assert (Py.eqb (inject_Z n) 0 = false) as ->
      by (apply eqb_false; now apply inject_Z_nonzero).
  reflexivity.
Qed.

Lemma scheduled_payment_guarded (principal periodic_rate : Q) (periods : Z) :
  0 < principal -> (0 < periods)%Z ->
  scheduled_payment principal periodic_rate periods =
    payment principal periodic_rate periods.
Proof.
  intros HP Hn. unfold scheduled_payment.
  apply ltb_true in HP. apply Z.ltb_lt in Hn. now rewrite HP, Hn.
Qed.

Lemma scheduled_payment_unguarded (principal periodic_rate : Q) (periods : Z) :
  principal <= 0 \/ (periods <= 0)%Z ->
  scheduled_payment principal periodic_rate periods = Py.Ok 0.
Proof.
  intros H. unfold scheduled_payment.
  destruct H as [H|H].
  - apply ltb_false in H. now rewrite H.
  - apply Z.ltb_ge in H. rewrite H. now rewrite andb_false_r.
Qed.

Lemma calculator_unguarded
    (principal periodic_rate : Q) (periods : Z) (extra_prepay : Q) :
  principal <= 0 \/ (periods <= 0)%Z ->
  calculator principal periodic_rate periods extra_prepay =
    Py.Ok (0, build_schedule principal periodic_rate periods
                (gross_payment 0 extra_prepay)).
Proof.
  intros H. unfold calculator.
  now rewrite scheduled_payment_unguarded by exact H.
Qed.

(** C4.  With a positive principal, a positive number of periods and a zero
    rate, the scheduled payment is the principal divided by the number of
    periods. *)
Theorem scheduled_payment_zero_rate
    (principal periodic_rate : Q) (periods : Z) :
  0 < principal -> (0 < periods)%Z -> periodic_rate == 0 ->
  scheduled_payment principal periodic_rate periods =
    Py.Ok (principal / inject_Z periods).
Proof.
  intros HP Hn Hr.
  rewrite scheduled_payment_guarded by assumption.
  now apply payment_without_interest.
Qed.

Lemma scheduled_payment_zero_rate_witness :
  0 < 1200 /\ (0 < 12)%Z /\ 0 == 0 /\
  scheduled_payment 1200 0 12 = Py.Ok (1200 / inject_Z 12).
Proof.
  assert (0 < 1200) as HP by q_eval.
  assert (0 == 0) as Hr by q_eval.
  split; [exact HP|]. split; [lia|]. split; [exact Hr|].
  apply (scheduled_payment_zero_rate 1200 0 12 HP); [lia | exact Hr].
Defined.

(** C5, as the code has it.  When the principal or the number of periods
    is zero, the scheduled payment is 0; with no extra prepayment the
    schedule is empty when the principal is zero. *)
Theorem degenerate_loan
    (principal periodic_rate : Q) (periods : Z) :
  principal == 0 \/ periods = 0%Z ->
  exists s,
    calculator principal periodic_rate periods 0 = Py.Ok (0, s) /\
    (principal == 0 -> rows s = []).
Proof.
  intros H.
  rewrite calculator_unguarded by (destruct H; [left; lra | right; lia]).
  eexists. split; [reflexivity|].
  intros Hz. rewrite build_schedule_rows. apply schedule_from_nil. lra.
Qed.

Lemma degenerate_loan_witness :
  (0 == 0 \/ 12%Z = 0%Z) /\
  exists s,
    calculator 0 0.01 12 0 = Py.Ok (0, s) /\ (0 == 0 -> rows s = []).
Proof.
  assert (0 == 0 \/ 12%Z = 0%Z) as H by (left; q_eval).
  split; [exact H|].
  exact (degenerate_loan 0 0.01 12 H).
Defined.

(** C5 as stated fails.  With a principal of 1000 and zero periods the
    scheduled payment is 0, but the loop still runs (its cap is 5000) and
    the schedule is not empty. *)
Lemma degenerate_loan_counterexample :
  (1000 == 0 \/ 0%Z = 0%Z) /\
  exists sp s,
    calculator 1000 0.01 0 0 = Py.Ok (sp, s) /\
    sp = 0 /\ length (rows s) = 5000%nat /\ rows s <> [].
Proof.
  split; [right; reflexivity|].
  exists 0, (build_schedule 1000 0.01 0 (gross_payment 0 0)).
  split; [apply calculator_unguarded; right; lia|].
  split; [reflexivity|].
  assert (length (rows (build_schedule 1000 0.01 0 (gross_payment 0 0)))
          = 5000%nat) as Hlen.
  { rewrite build_schedule_rows.
    apply (schedule_from_stalled 1000 0.01 0 (gross_payment 0 0) 5000);
      [q_eval | q_eval | reflexivity | reflexivity]. }
  split; [exact Hlen|].
  intros Hnil. rewrite Hnil in Hlen. discriminate Hlen.
Qed.

(** On exact numbers only.  For a principal, rate, number of periods and
    extra prepayment that are not negative the calculation raises nothing:
    when the payment formula is reached, the divisor of the branch taken is
    not zero.  Binary64 numbers do not follow for the formula branch, as
    the evaluations at the end of the file show. *)
Lemma calculator_never_raises
    (principal periodic_rate : Q) (periods : Z) (extra_prepay : Q) :
  0 <= principal -> 0 <= periodic_rate -> (0 <= periods)%Z ->
  0 <= extra_prepay ->
  Py.raises (calculator principal periodic_rate periods extra_prepay) = false /\
  (0 < principal -> (0 < periods)%Z ->
   if Py.eqb periodic_rate 0
   then ~ inject_Z periods == 0
   else Py.pow (1 + periodic_rate) periods
          = Py.Ok ((1 + periodic_rate) ^ periods) /\
        ~ (1 + periodic_rate) ^ periods - 1 == 0).
Proof.
  intros HP Hr Hn He. split.
  - unfold calculator.
    destruct (Qlt_le_dec 0 principal) as [HP'|HP'];
      [destruct (Z_lt_le_dec 0 periods) as [Hn'|Hn']|].
    + rewrite scheduled_payment_guarded by assumption.
      case_test (Py.eqb periodic_rate 0).
      * now rewrite payment_without_interest by assumption.
      * rewrite payment_with_interest by (assumption || lra). reflexivity.
    + now rewrite scheduled_payment_unguarded by (right; lia).
    + now rewrite scheduled_payment_unguarded by (left; lra).
  - intros HP' Hn'. case_test (Py.eqb periodic_rate 0).
    + now apply inject_Z_nonzero.
    + split; [now apply pow_growth|].
      assert (0 < periodic_rate) as Hr' by lra.
      pose proof (growth_above_one periodic_rate periods Hr' Hn'). lra.
Qed.

(** A negative rate is another matter: with a rate of -2 and two periods
    the divisor [(1 + r) ** n - 1] is zero and [payment] raises. *)
Example payment_negative_rate_raises :
  payment 1000 (-2) 2 = Py.Raise Py.ZeroDivisionError.
Proof. reflexivity. Qed.

(** ** The formula payment on exact numbers

    With [q = 1 + r] and a payment [G] such that
    [G * (q^n - 1) == P * r * q^n], the balance the loop holds after [k]
    passes is [P * (q^n - q^k) / (q^n - 1)]; it is stated below without the
    division. *)

Lemma nonneg_of_scaled (x d : Q) : 0 < d -> 0 <= x * d -> 0 <= x.
Proof.
  intros Hd H. apply (Qmult_le_r 0 x d Hd). now rewrite Qmult_0_l.
Qed.

Lemma zero_of_scaled (x d : Q) : 0 < d -> x * d == 0 -> x == 0.
Proof.
  intros Hd H. apply Qmult_integral in H. destruct H as [H|H]; [exact H|lra].
Qed.

Section Amortizing.

Variables (P r : Q) (n : Z) (G : Q).
Hypothesis HP : 0 < P.
Hypothesis Hr : 0 < r.
Hypothesis Hn : (0 < n)%Z.
Hypothesis HG : G * ((1 + r) ^ n - 1) == P * r * (1 + r) ^ n.

Lemma growth_succ (k : Z) : (1 + r) ^ (k + 1) == (1 + r) ^ k * (1 + r).
Proof.
  rewrite Qpower_plus by lra. now rewrite Qpower_1_r.
Qed.

Lemma growth_le (k : Z) : (k <= n)%Z -> (1 + r) ^ k <= (1 + r) ^ n.
Proof. intros Hk. apply Qpower_le_compat_l; [exact Hk | lra]. Qed.

(** One pass from a balance on the closed form: the payment covers the
    interest, does not exceed what is owed, and the closing balance is on
    the closed form again. *)
Lemma amortizing_step (bal : Q) (k : Z) :
  (0 <= k < n)%Z -> 0 < bal ->
  bal * ((1 + r) ^ n - 1) == P * ((1 + r) ^ n - (1 + r) ^ k) ->
  principal_component r G bal = G - bal * r /\
  0 <= bal - (G - bal * r) /\
  (bal - (G - bal * r)) * ((1 + r) ^ n - 1)
    == P * ((1 + r) ^ n - (1 + r) ^ (k + 1)).
Proof.
  intros Hk Hb Hbal.
  pose proof (growth_above_one r n Hr Hn) as Ha.
  pose proof (growth_le (k + 1) ltac:(lia)) as Hkn.
  pose proof (Qpower_0_lt (1 + r) k ltac:(lra)) as Hbpos.
  rewrite growth_succ in *.
  remember ((1 + r) ^ n) as a eqn:Ea.
  remember ((1 + r) ^ k) as b eqn:Eb.
  clear Ea Eb.
  assert (r * (bal * (a - 1)) == r * (P * (a - b))) as Hscaled
      by (now rewrite Hbal).
  assert ((bal - (G - bal * r)) * (a - 1) == P * (a - b * (1 + r))) as Hc
      by lra.
  assert ((G - bal * r) * (a - 1) == P * (r * b)) as Hpc by lra.
  assert (0 <= bal - (G - bal * r)) as Hc0.
  { apply (nonneg_of_scaled _ (a - 1)); [lra|]. rewrite Hc.
    apply Qmult_le_0_compat; lra. }
  assert (0 <= G - bal * r) as Hpc0.
  { apply (nonneg_of_scaled _ (a - 1)); [lra|]. rewrite Hpc.
    apply Qmult_le_0_compat; [lra|]. apply Qmult_le_0_compat; lra. }
  split; [|split; [exact Hc0 | exact Hc]].
  unfold principal_component. cbv zeta.
  assert (Py.leb 0 r = true) as -> by (apply leb_true; lra).
  destruct (min_spec (G - bal * r) bal) as [[H ->]|[H ->]]; [lra|].
  now assert (Py.ltb (G - bal * r) 0 = false) as -> by (apply ltb_false; lra).
Qed.

Lemma schedule_from_amortizes (fuel : nat) :
  forall bal k,
    (0 <= k < n)%Z -> (Z.to_nat (n - k) <= fuel)%nat -> 0 < bal ->
    bal * ((1 + r) ^ n - 1) == P * ((1 + r) ^ n - (1 + r) ^ k) ->
    exists front final,
      schedule_from r n G fuel bal k = front ++ [final] /\
      (length front < Z.to_nat (n - k))%nat /\
      0 <= Closing_Balance final <= 0.01 /\
      (S (length front) = Z.to_nat (n - k) -> Closing_Balance final == 0) /\
      sum_of Principal (front ++ [final]) == bal - Closing_Balance final /\
      balance_after r n G fuel bal k = 0.
Proof.
  induction fuel as [|fuel IH]; intros bal k Hk Hfuel Hb Hbal; [lia|].
  destruct (amortizing_step bal k Hk Hb Hbal) as (Hpc & Hc0 & Hc).
  pose proof (growth_above_one r n Hr Hn) as Ha.
  rewrite schedule_from_S, balance_after_S.
  assert (Py.ltb 0 bal = true) as -> by (now apply ltb_true).
  assert ((k <? n + 5000)%Z = true) as -> by (apply Z.ltb_lt; lia).
  simpl andb.
  assert (Closing_Balance (next_row r G bal k) = bal - (G - bal * r))
    as Hclose by (simpl; now rewrite Hpc).
  assert (Principal (next_row r G bal k) = G - bal * r)
    as Hprin by (simpl; now rewrite Hpc).
  assert ((k + 1 = n)%Z -> bal - (G - bal * r) == 0) as Hlast.
  { intros Hend. rewrite Hend in Hc.
    apply (zero_of_scaled _ ((1 + r) ^ n - 1)); [lra|].
    rewrite Hc. ring. }
  case_test (Py.leb (Closing_Balance (next_row r G bal k)) 0.01).
  - exists [], (next_row r G bal k).
    split; [reflexivity|]. split; [simpl; lia|].
    split; [rewrite Hclose in *; split; lra|].
    split; [|split; [|reflexivity]].
    + intros Hlen. rewrite Hclose. apply Hlast. simpl in Hlen. lia.
    + simpl app. rewrite sum_of_cons, sum_of_nil, Hprin, Hclose. ring.
  - assert (k + 1 < n)%Z as Hk1.
    { destruct (Z.eq_dec (k + 1) n) as [Hend|Hne]; [|lia].
      specialize (Hlast Hend). rewrite Hclose in *. lra. }
    destruct (IH (Closing_Balance (next_row r G bal k)) (k + 1)%Z)
      as (front & final & Hrows & Hlen & Hfin & Hfull & Hsum & Hbal');
      [lia | lia | lra | now rewrite Hclose |].
    exists (next_row r G bal k :: front), final.
    split; [now rewrite Hrows|]. split; [simpl; lia|].
    split; [exact Hfin|]. split; [|split; [|exact Hbal']].
    + intros Hl. apply Hfull. simpl in Hl. lia.
    + simpl app. rewrite sum_of_cons, Hsum, Hprin, Hclose. ring.
Qed.

End Amortizing.

Lemma formula_payment_balances (P r : Q) (n : Z) :
  0 < r -> (0 < n)%Z ->
  gross_payment (P * r * (1 + r) ^ n / ((1 + r) ^ n - 1)) 0
    * ((1 + r) ^ n - 1)
  == P * r * (1 + r) ^ n.
Proof.
  intros Hr Hn. pose proof (growth_above_one r n Hr Hn) as Ha.
  unfold gross_payment. field. lra.
Qed.

(** On exact numbers only.  For a positive principal, rate and number of
    periods, the payment of the formula, fed to the loop with no extra
    prepayment, gives a schedule of at least one and at most [periods] rows.
    Its last row closes between 0 and 0.01 (at exactly 0 when the schedule
    runs the full [periods] rows), the loop leaves its balance at 0, and the
    accumulated principal is the principal less that last closing balance.
    Binary64 numbers do not follow, as the evaluations at the end of the
    file show. *)
Lemma formula_payment_amortizes (principal periodic_rate : Q) (periods : Z) :
  0 < principal -> 0 < periodic_rate -> (0 < periods)%Z ->
  exists sp s front final,
    calculator principal periodic_rate periods 0 = Py.Ok (sp, s) /\
    rows s = front ++ [final] /\
    (length (rows s) <= Z.to_nat periods)%nat /\
    0 <= Closing_Balance final <= 0.01 /\
    (length (rows s) = Z.to_nat periods -> Closing_Balance final == 0) /\
    balance s = 0 /\
    total_principal s == principal - Closing_Balance final /\
    principal - 0.01 <= total_principal s <= principal.
Proof.
  intros HP Hr Hn.
  set (sp := principal * periodic_rate * (1 + periodic_rate) ^ periods
             / ((1 + periodic_rate) ^ periods - 1)).
  exists sp, (build_schedule principal periodic_rate periods (gross_payment sp 0)).
  destruct (schedule_from_amortizes principal periodic_rate periods
              (gross_payment sp 0) HP Hr Hn
              (formula_payment_balances principal periodic_rate periods Hr Hn)
              (Z.to_nat (periods + 5000)) principal 0)
    as (front & final & Hrows & Hlen & Hfin & Hfull & Hsum & Hbal).
  { lia. }
  { lia. }
  { exact HP. }
  { rewrite Qpower_0_r. ring. }
  exists front, final.
  assert (total_principal
            (build_schedule principal periodic_rate periods (gross_payment sp 0))
          == principal - Closing_Balance final) as Htp.
  { rewrite build_schedule_total_principal, build_schedule_rows, Hrows.
    exact Hsum. }
  rewrite build_schedule_rows, build_schedule_balance, Hrows.
  rewrite Z.sub_0_r in *. rewrite length_app. simpl length.
  split.
  { unfold calculator.
    rewrite scheduled_payment_guarded, payment_with_interest by assumption.
    reflexivity. }
  split; [reflexivity|]. split; [lia|]. split; [exact Hfin|].
  split; [intros Hl; apply Hfull; lia|].
  split; [exact Hbal|]. split; [exact Htp|].
  rewrite Htp. lra.
Qed.

(** * Further properties of the schedule *)

(** ** The columns of the rows *)

Lemma schedule_from_periods (periodic_rate : Q) (periods : Z) (gross : Q)
    (fuel : nat) :
  forall bal k,
    map Period (schedule_from periodic_rate periods gross fuel bal k) =
      map (fun j => (k + Z.of_nat j)%Z)
        (seq 1 (length (schedule_from periodic_rate periods gross fuel bal k))).
Proof.
  induction fuel as [|fuel IH]; intros bal k; [reflexivity|].
  rewrite schedule_from_S.
  destruct (Py.ltb 0 bal && (k <? periods + 5000)%Z); [|reflexivity].
  destruct (Py.leb _ 0.01); [reflexivity|].
  cbn [map length seq]. f_equal.
  rewrite IH, <- (seq_shift _ 1), map_map.
  apply map_ext. intros j. lia.
Qed.

(** X1.  The [Period] column counts the rows from 1. *)
Theorem schedule_periods_numbered
    (principal periodic_rate : Q) (periods : Z) (gross : Q) :
  let l := rows (build_schedule principal periodic_rate periods gross) in
  map Period l = map Z.of_nat (seq 1 (length l)).
Proof.
  cbv zeta. rewrite build_schedule_rows, schedule_from_periods.
  apply map_ext. intros j. lia.
Qed.

Lemma schedule_from_columns (periodic_rate : Q) (periods : Z) (gross : Q)
    (fuel : nat) :
  forall bal k,
    Forall (fun row => 0 < Opening_Balance row /\
                       Payment row = gross /\
                       Interest row = Opening_Balance row * periodic_rate)
      (schedule_from periodic_rate periods gross fuel bal k).
Proof.
  induction fuel as [|fuel IH]; intros bal k; [constructor|].
  rewrite schedule_from_S.
  destruct (Py.ltb 0 bal && (k <? periods + 5000)%Z) eqn:G; [|constructor].
  apply andb_prop in G. destruct G as [G _]. apply ltb_true in G.
  destruct (Py.leb _ 0.01); repeat constructor; auto.
Qed.

(** X2.  Every row opens at a positive balance, carries the gross payment, and
    charges the opening balance times the periodic rate as interest. *)
Theorem schedule_rows_columns
    (principal periodic_rate : Q) (periods : Z) (gross : Q) :
  Forall (fun row => 0 < Opening_Balance row /\
                     Payment row = gross /\
                     Interest row = Opening_Balance row * periodic_rate)
    (rows (build_schedule principal periodic_rate periods gross)).
Proof. rewrite build_schedule_rows. apply schedule_from_columns. Qed.

(** The principal component for a rate that is not negative: never more
    than what is owed, never more than the payment leaves after interest
    (unless that is negative), and equal to it when a balance remains. *)
Lemma principal_component_bounds (periodic_rate gross bal : Q) :
  0 <= periodic_rate -> 0 < bal ->
  let pc := principal_component periodic_rate gross bal in
  pc <= bal /\
  (bal * periodic_rate <= gross -> pc <= gross - bal * periodic_rate) /\
  (bal * periodic_rate <= gross -> pc < bal ->
   pc = gross - bal * periodic_rate).
Proof.
  intros Hr Hb. unfold principal_component. cbv zeta.
  assert (Py.leb 0 periodic_rate = true) as -> by (now apply leb_true).
  destruct (min_spec (gross - bal * periodic_rate) bal) as [[H ->]|[H ->]].
  - assert (Py.ltb bal 0 = false) as -> by (apply ltb_false; lra).
    repeat split; intros; lra.
  - case_test (Py.ltb (gross - bal * periodic_rate) 0).
    + repeat split; intros; lra.
    + repeat split; intros; (reflexivity || lra).
Qed.

Lemma schedule_from_nonneg (periodic_rate : Q) (periods : Z) (gross : Q)
    (fuel : nat) :
  0 <= periodic_rate ->
  forall bal k,
    Forall (fun row => 0 <= Closing_Balance row /\
                       Principal row <= Opening_Balance row)
      (schedule_from periodic_rate periods gross fuel bal k).
Proof.
  intros Hr.
  induction fuel as [|fuel IH]; intros bal k; [constructor|].
  rewrite schedule_from_S.
  destruct (Py.ltb 0 bal && (k <? periods + 5000)%Z) eqn:G; [|constructor].
  apply andb_prop in G. destruct G as [G _]. apply ltb_true in G.
  destruct (principal_component_bounds periodic_rate gross bal Hr G)
    as (Hle & _).
  assert (0 <= Closing_Balance (next_row periodic_rate gross bal k) /\
          Principal (next_row periodic_rate gross bal k)
          <= Opening_Balance (next_row periodic_rate gross bal k)) as Hrow
      by (simpl; split; lra).
  destruct (Py.leb _ 0.01); constructor; auto.
Qed.

(** X3.  With a rate that is not negative no row pays more principal than is
    owed, so no closing balance is negative. *)
Theorem schedule_never_overpays
    (principal periodic_rate : Q) (periods : Z) (gross : Q) :
  0 <= periodic_rate ->
  Forall (fun row => 0 <= Closing_Balance row /\
                     Principal row <= Opening_Balance row)
    (rows (build_schedule principal periodic_rate periods gross)).
Proof.
  intros Hr. rewrite build_schedule_rows. now apply schedule_from_nonneg.
Qed.

Lemma schedule_never_overpays_witness :
  0 <= 0.01 /\
  Forall (fun row => 0 <= Closing_Balance row /\
                     Principal row <= Opening_Balance row)
    (rows (build_schedule 1000 0.01 12 90)).
Proof.
  assert (0 <= 0.01) as Hr by q_eval.
  split; [exact Hr|].
  exact (schedule_never_overpays 1000 0.01 12 90 Hr).
Defined.

(** The hypothesis is needed: with a negative rate the whole payment goes
    to principal, here 200 against a balance of 100. *)
Example negative_rate_overpays :
  map row_view (rows (build_schedule 100 (-1) 12 200)) =
    [ (1%Z, (100, 200, -100, 200, -100)) ].
Proof. vm_compute. reflexivity. Qed.

(** ** Totals *)

(** X5.  The two running totals are the sums of the [Interest] and [Principal]
    columns. *)
Theorem totals_are_column_sums
    (principal periodic_rate : Q) (periods : Z) (gross : Q) :
  let s := build_schedule principal periodic_rate periods gross in
  total_interest s == sum_of Interest (rows s) /\
  total_principal s == sum_of Principal (rows s).
Proof.
  cbv zeta. split.
  - apply build_schedule_total_interest.
  - apply build_schedule_total_principal.
Qed.


(** ** Balances along the schedule *)

Lemma schedule_from_below (periodic_rate : Q) (periods : Z) (gross : Q)
    (fuel : nat) :
  forall bal k,
    Forall (fun row => Opening_Balance row <= bal)
      (schedule_from periodic_rate periods gross fuel bal k).
Proof.
  induction fuel as [|fuel IH]; intros bal k; [constructor|].
  rewrite schedule_from_S.
  destruct (Py.ltb 0 bal && (k <? periods + 5000)%Z); [|constructor].
  assert (Opening_Balance (next_row periodic_rate gross bal k) <= bal)
    as Hrow by (simpl; lra).
  destruct (Py.leb _ 0.01); constructor; auto.
  eapply Forall_impl; [|apply IH].
  intros row H. simpl in H.
  pose proof (principal_component_nonneg periodic_rate gross bal). lra.
Qed.

Lemma schedule_from_descends (periodic_rate : Q) (periods : Z) (gross : Q)
    (fuel : nat) :
  forall bal k,
    StronglySorted (fun a b => Opening_Balance b <= Opening_Balance a)
      (schedule_from periodic_rate periods gross fuel bal k).
Proof.
  induction fuel as [|fuel IH]; intros bal k; [constructor|].
  rewrite schedule_from_S.
  destruct (Py.ltb 0 bal && (k <? periods + 5000)%Z); [|constructor].
  destruct (Py.leb _ 0.01); constructor; auto; try constructor.
  eapply Forall_impl; [|apply schedule_from_below].
  intros row H. simpl in *.
  pose proof (principal_component_nonneg periodic_rate gross bal). lra.
Qed.

(** X7.  The balance never goes up: every row opens at or below the principal
    and at or below the opening balance of every earlier row. *)
Theorem opening_balances_descend
    (principal periodic_rate : Q) (periods : Z) (gross : Q) :
  let l := rows (build_schedule principal periodic_rate periods gross) in
  Forall (fun row => Opening_Balance row <= principal) l /\
  StronglySorted (fun a b => Opening_Balance b <= Opening_Balance a) l.
Proof.
  cbv zeta. rewrite build_schedule_rows. split.
  - apply schedule_from_below.
  - apply schedule_from_descends.
Qed.

(** ** The closing balance a schedule ends on *)


(** ** Paying more *)

Lemma closing_monotone (periodic_rate gross gross' bal bal' : Q) (k : Z) :
  0 <= periodic_rate -> gross <= gross' -> 0 < bal' -> bal' <= bal ->
  Closing_Balance (next_row periodic_rate gross' bal' k)
  <= Closing_Balance (next_row periodic_rate gross bal k).
Proof.
  intros Hr Hg Hb' Hb. simpl.
  assert (bal' * periodic_rate <= bal * periodic_rate) as Hint
      by (apply Qmult_le_compat_r; assumption).
  unfold principal_component. cbv zeta.
  assert (Py.leb 0 periodic_rate = true) as -> by (now apply leb_true).
  destruct (min_spec (gross - bal * periodic_rate) bal) as [[H ->]|[H ->]];
    destruct (min_spec (gross' - bal' * periodic_rate) bal')
      as [[H' ->]|[H' ->]];
    repeat match goal with
           | |- context [Py.ltb ?a 0] => case_test (Py.ltb a 0)
           end; lra.
Qed.

Lemma sum_of_nonneg (f : Row -> Q) (l : list Row) :
  Forall (fun row => 0 <= f row) l -> 0 <= sum_of f l.
Proof.
  induction 1 as [|row l Hrow _ IH]; [rewrite sum_of_nil; lra|].
  rewrite sum_of_cons. lra.
Qed.

Lemma schedule_from_interest_nonneg (periodic_rate : Q) (periods : Z)
    (gross : Q) (fuel : nat) (bal : Q) (k : Z) :
  0 <= periodic_rate ->
  0 <= sum_of Interest (schedule_from periodic_rate periods gross fuel bal k).
Proof.
  intros Hr. apply sum_of_nonneg.
  eapply Forall_impl; [|apply schedule_from_columns].
  intros row (Hopen & _ & ->). apply Qmult_le_0_compat; lra.
Qed.

(** Two runs of the loop, the second with at least the payment and at most
    the balance of the first: the second is no longer, charges no more
    interest, and ends by [break] if the first does. *)
Lemma schedule_from_compare (periodic_rate : Q) (periods : Z)
    (gross gross' : Q) (fuel : nat) :
  0 <= periodic_rate -> gross <= gross' ->
  forall bal bal' k,
    0 < bal' -> bal' <= bal ->
    (length (schedule_from periodic_rate periods gross' fuel bal' k)
     <= length (schedule_from periodic_rate periods gross fuel bal k))%nat /\
    sum_of Interest (schedule_from periodic_rate periods gross' fuel bal' k)
    <= sum_of Interest (schedule_from periodic_rate periods gross fuel bal k) /\
    (balance_after periodic_rate periods gross fuel bal k = 0 ->
     balance_after periodic_rate periods gross' fuel bal' k = 0).
Proof.
  intros Hr Hg.
  induction fuel as [|fuel IH]; intros bal bal' k Hb' Hb.
  - simpl. repeat split; [lia | lra | intros H; rewrite H in Hb; lra].
  - rewrite !schedule_from_S, !balance_after_S.
    assert (Py.ltb 0 bal = true) as -> by (apply ltb_true; lra).
    assert (Py.ltb 0 bal' = true) as -> by (now apply ltb_true).
    simpl andb.
    destruct (k <? periods + 5000)%Z.
    2:{ repeat split; [lia | rewrite sum_of_nil; lra |
                       intros H; rewrite H in Hb; lra]. }
    pose proof (closing_monotone periodic_rate gross gross' bal bal' k
                  Hr Hg Hb' Hb) as Hc.
    assert (Interest (next_row periodic_rate gross' bal' k)
            <= Interest (next_row periodic_rate gross bal k)) as Hi
        by (simpl; apply Qmult_le_compat_r; assumption).
    case_test (Py.leb (Closing_Balance (next_row periodic_rate gross bal k))
                 0.01);
      case_test (Py.leb (Closing_Balance
                           (next_row periodic_rate gross' bal' k)) 0.01);
      try lra.
    + rewrite !sum_of_cons, !sum_of_nil. repeat split; [simpl; lia | lra].
    + rewrite !sum_of_cons, sum_of_nil.
      pose proof (schedule_from_interest_nonneg periodic_rate periods gross
                    fuel (Closing_Balance (next_row periodic_rate gross bal k))
                    (k + 1) Hr).
      repeat split; [simpl; lia | lra].
    + destruct (IH (Closing_Balance (next_row periodic_rate gross bal k))
                  (Closing_Balance (next_row periodic_rate gross' bal' k))
                  (k + 1)%Z) as (Hlen & Hsum & Hbal); [lra | exact Hc |].
      rewrite !sum_of_cons.
      repeat split; [cbn [length]; lia | lra | exact Hbal].
Qed.

(** X9.  With a rate that is not negative, a larger payment never gives a longer
    schedule. *)
Theorem paying_more_never_lengthens
    (principal periodic_rate : Q) (periods : Z) (gross gross' : Q) :
  0 <= periodic_rate -> gross <= gross' ->
  (length (rows (build_schedule principal periodic_rate periods gross'))
   <= length (rows (build_schedule principal periodic_rate periods gross)))%nat.
Proof.
  intros Hr Hg. rewrite !build_schedule_rows.
  destruct (Qlt_le_dec 0 principal) as [HP|HP].
  - apply schedule_from_compare; (assumption || lra).
  - rewrite !schedule_from_nil by exact HP. reflexivity.
Qed.

Lemma paying_more_never_lengthens_witness :
  0 <= 0.01 /\ 90 <= 140 /\
  (length (rows (build_schedule 1000 0.01 12 140))
   <= length (rows (build_schedule 1000 0.01 12 90)))%nat.
Proof.
  assert (0 <= 0.01) as Hr by q_eval.
  assert (90 <= 140) as Hg by q_eval.
  split; [exact Hr|]. split; [exact Hg|].
  exact (paying_more_never_lengthens 1000 0.01 12 90 140 Hr Hg).
Defined.

(** X10.  With a rate that is not negative, a larger payment never costs more
    interest in total. *)
Theorem paying_more_never_costs_interest
    (principal periodic_rate : Q) (periods : Z) (gross gross' : Q) :
  0 <= periodic_rate -> gross <= gross' ->
  total_interest (build_schedule principal periodic_rate periods gross')
  <= total_interest (build_schedule principal periodic_rate periods gross).
Proof.
  intros Hr Hg. rewrite !build_schedule_total_interest, !build_schedule_rows.
  destruct (Qlt_le_dec 0 principal) as [HP|HP].
  - apply schedule_from_compare; (assumption || lra).
  - rewrite !schedule_from_nil by exact HP. lra.
Qed.

Lemma paying_more_never_costs_interest_witness :
  0 <= 0.01 /\ 90 <= 140 /\
  total_interest (build_schedule 1000 0.01 12 140)
  <= total_interest (build_schedule 1000 0.01 12 90).
Proof.
  assert (0 <= 0.01) as Hr by q_eval.
  assert (90 <= 140) as Hg by q_eval.
  split; [exact Hr|]. split; [exact Hg|].
  exact (paying_more_never_costs_interest 1000 0.01 12 90 140 Hr Hg).
Defined.

(** ** Leaving the loop by [break] *)



(** * The whole script *)

Lemma periodic_rate_value (inp : App.Inputs) :
  App.periodic_rate inp =
    Py.Ok (App.interest_rate inp / 100
           / inject_Z (periods_per_year (App.frequency inp))).
Proof.
  unfold App.periodic_rate, Py.div.
  assert (Py.eqb 100 0 = false) as -> by reflexivity.
  simpl Py.bind.
  assert (Py.eqb (inject_Z (periods_per_year (App.frequency inp))) 0 = false)
    as -> by (now destruct (App.frequency inp)).
  reflexivity.
Qed.

(** What [App.run] returns once the scheduled payment is known. *)
Lemma run_value (inp : App.Inputs) (sp : Q) :
  let r := App.interest_rate inp / 100
           / inject_Z (periods_per_year (App.frequency inp)) in
  let s := build_schedule (App.principal inp) r (App.periods inp)
             (gross_payment sp (App.extra_prepay inp)) in
  scheduled_payment (App.principal inp) r (App.periods inp) = Py.Ok sp ->
  App.run inp =
    Py.Ok (App.mkOutputs sp (gross_payment sp (App.extra_prepay inp)) s
             (App.total_paid inp s) (App.months_to_payoff s)
             (inject_Z (App.months_to_payoff s)
              / inject_Z (periods_per_year (App.frequency inp)))).
Proof.
  intros r s Hsp. unfold App.run, calculator.
  rewrite periodic_rate_value. cbn [Py.bind]. fold r. rewrite Hsp.
  cbn [Py.bind]. fold s. unfold App.years_to_payoff, Py.div.
  assert ((periods_per_year (App.frequency inp) =? 0)%Z = false) as ->
      by (now destruct (App.frequency inp)).
  assert (Py.eqb (inject_Z (periods_per_year (App.frequency inp))) 0 = false)
    as -> by (now destruct (App.frequency inp)).
  reflexivity.
Qed.

(** With a negative annual rate the script can raise: -2400% a year, paid
    monthly for a year, makes [(1 + r) ** n - 1] zero. *)
Example app_negative_rate_raises :
  App.run (App.mkInputs 1000 0 (-2400) 1 Monthly 0 0 0 false 0)
  = Py.Raise Py.ZeroDivisionError.
Proof. vm_compute. reflexivity. Qed.

(** X15.  When the down payment covers the price there is no loan: whatever the
    rate and the tenure, the script raises nothing, the scheduled payment is
    0, the schedule has no row, the payoff time is 0 and the total paid is
    the fee plus the yearly charges over the tenure. *)
Theorem app_without_loan (inp : App.Inputs) :
  App.purchase_price inp <= App.down_payment inp ->
  exists out,
    App.run inp = Py.Ok out /\
    App.out_scheduled_payment out = 0 /\
    rows (App.out_state out) = [] /\
    App.out_months_to_payoff out = 0%Z /\
    App.out_years_to_payoff out == 0 /\
    App.out_total_paid out
    == App.processing_fee inp
       + (App.insurance inp + App.taxes inp)
         * inject_Z (App.tenure_years inp).
Proof.
  intros Hcov.
  assert (App.principal inp <= 0) as HP.
  { unfold App.principal, effective_principal, Py.max.
    case_test (Py.ltb (App.purchase_price inp - App.down_payment inp) 0); lra. }
  eexists. split.
  { apply run_value. apply scheduled_payment_unguarded. now left. }
  cbn [App.out_scheduled_payment App.out_state App.out_months_to_payoff
       App.out_years_to_payoff App.out_total_paid].
  unfold App.months_to_payoff, App.total_paid.
  rewrite build_schedule_total_interest, build_schedule_total_principal.
  rewrite build_schedule_rows, schedule_from_nil by exact HP.
  rewrite !sum_of_nil. simpl length.
  repeat split; try reflexivity. ring.
Qed.

Lemma app_without_loan_witness :
  let inp := App.mkInputs 200000 250000 9.5 20 Weekly 5000 3000 100 true 500 in
  App.purchase_price inp <= App.down_payment inp /\
  exists out,
    App.run inp = Py.Ok out /\
    App.out_scheduled_payment out = 0 /\
    rows (App.out_state out) = [] /\
    App.out_months_to_payoff out = 0%Z /\
    App.out_years_to_payoff out == 0 /\
    App.out_total_paid out
    == App.processing_fee inp
       + (App.insurance inp + App.taxes inp)
         * inject_Z (App.tenure_years inp).
Proof.
  cbv zeta.
  set (inp := App.mkInputs 200000 250000 9.5 20 Weekly 5000 3000 100 true 500).
  assert (App.purchase_price inp <= App.down_payment inp) as Hcov by q_eval.
  split; [exact Hcov|].
  exact (app_without_loan inp Hcov).
Defined.


(** * Where the payment meets the interest *)

Lemma schedule_from_division (periodic_rate : Q) (periods : Z) (gross : Q)
    (fuel : nat) :
  0 <= periodic_rate ->
  forall bal k,
    Forall (fun row =>
              Interest row <= Payment row ->
              Principal row <= Payment row - Interest row /\
              (0 < Closing_Balance row ->
               Principal row = Payment row - Interest row))
      (schedule_from periodic_rate periods gross fuel bal k).
Proof.
  intros Hr.
  induction fuel as [|fuel IH]; intros bal k; [constructor|].
  rewrite schedule_from_S.
  destruct (Py.ltb 0 bal && (k <? periods + 5000)%Z) eqn:G; [|constructor].
  apply andb_prop in G. destruct G as [G _]. apply ltb_true in G.
  destruct (principal_component_bounds periodic_rate gross bal Hr G)
    as (_ & Hfit & Hexact).
  assert (Interest (next_row periodic_rate gross bal k)
          <= Payment (next_row periodic_rate gross bal k) ->
          Principal (next_row periodic_rate gross bal k)
          <= Payment (next_row periodic_rate gross bal k)
             - Interest (next_row periodic_rate gross bal k) /\
          (0 < Closing_Balance (next_row periodic_rate gross bal k) ->
           Principal (next_row periodic_rate gross bal k)
           = Payment (next_row periodic_rate gross bal k)
             - Interest (next_row periodic_rate gross bal k))) as Hrow.
  { simpl. intros Hcov. split; [exact (Hfit Hcov)|].
    intros Hpos. apply Hexact; [exact Hcov | lra]. }
  destruct (Py.leb _ 0.01); constructor; auto.
Qed.

(** X4.  With a rate that is not negative, in a row whose payment covers its
    interest the principal component is at most the payment less the
    interest, and it is that difference, as the code computes it, whenever
    the row leaves a positive closing balance. *)
Theorem principal_is_payment_less_interest
    (principal periodic_rate : Q) (periods : Z) (gross : Q) :
  0 <= periodic_rate ->
  Forall (fun row =>
            Interest row <= Payment row ->
            Principal row <= Payment row - Interest row /\
            (0 < Closing_Balance row ->
             Principal row = Payment row - Interest row))
    (rows (build_schedule principal periodic_rate periods gross)).
Proof.
  intros Hr. rewrite build_schedule_rows. now apply schedule_from_division.
Qed.

Lemma principal_is_payment_less_interest_witness :
  0 <= 0.01 /\
  Forall (fun row =>
            Interest row <= Payment row ->
            Principal row <= Payment row - Interest row /\
            (0 < Closing_Balance row ->
             Principal row = Payment row - Interest row))
    (rows (build_schedule 1000 0.01 12 90)).
Proof.
  assert (0 <= 0.01) as Hr by q_eval.
  split; [exact Hr|].
  exact (principal_is_payment_less_interest 1000 0.01 12 90 Hr).
Defined.

(** * A zero rate *)

Lemma schedule_from_no_interest (periodic_rate : Q) (periods : Z) (gross : Q)
    (fuel : nat) :
  periodic_rate == 0 ->
  forall bal k,
    Forall (fun row => Interest row == 0)
      (schedule_from periodic_rate periods gross fuel bal k).
Proof.
  intros Hr bal k. eapply Forall_impl; [|apply schedule_from_columns].
  intros row (_ & _ & ->). rewrite Hr. ring.
Qed.

Lemma sum_of_zero (f : Row -> Q) (l : list Row) :
  Forall (fun row => f row == 0) l -> sum_of f l == 0.
Proof.
  induction 1 as [|row l Hrow _ IH]; [reflexivity|].
  rewrite sum_of_cons, Hrow, IH. ring.
Qed.

(** X8.  With a zero rate no interest is charged: the [Interest] of every
    row is 0 and so is [total_interest], whatever the principal, the number
    of periods and the payment. *)
Theorem zero_rate_charges_no_interest
    (principal periodic_rate : Q) (periods : Z) (gross : Q) :
  periodic_rate == 0 ->
  let s := build_schedule principal periodic_rate periods gross in
  Forall (fun row => Interest row == 0) (rows s) /\
  total_interest s == 0.
Proof.
  intros Hr. cbv zeta.
  rewrite build_schedule_total_interest, build_schedule_rows.
  pose proof (schedule_from_no_interest periodic_rate periods gross
                (Z.to_nat (periods + 5000)) Hr principal 0) as H.
  split; [exact H | now apply sum_of_zero].
Qed.

Lemma zero_rate_charges_no_interest_witness :
  0 == 0 /\
  let s := build_schedule 1200 0 12 150 in
  Forall (fun row => Interest row == 0) (rows s) /\
  total_interest s == 0.
Proof.
  assert (0 == 0) as Hr by q_eval.
  split; [exact Hr|].
  exact (zero_rate_charges_no_interest 1200 0 12 150 Hr).
Defined.

(** * The payment fed back, and the errors of the payment *)





(** ** Evaluations on binary64 numbers *)

Section Binary64.

Import PrimFloat.
Local Set Warnings "-inexact-float".



End Binary64.
